(** * Role-claim negotiation of the group role-selector bot

    A shallow embedding of [Bot/complaint_management_bot.py]: the static role
    catalog, the two module-level dictionaries [ASSIGNMENTS] and
    [PENDING_CONFIRM], the utility functions over them, the inline-keyboard
    callback handler [roles_callback], the [/reset] command handler, the
    role keyboard and the read-only handlers of [/start], [/roles],
    [/status] and [/myrole].

    Handlers are state passing: they take the store before the update and
    return the store after it together with the one message the handler
    sends last (an alert, an edited message, a plain reply) or the exception
    that escapes it.  The bare acknowledgement [query.answer()] that opens
    [roles_callback] carries no data and is not recorded. *)

From Stdlib Require Import ZArith String Ascii List.
From stdpp Require Import base tactics option list gmap strings pretty.


Local Open Scope Z_scope.

(** ** Data *)

(** An entry of [PROJECT_ROLES]: [{"key": ..., "name": ..., "desc": ...}]. *)
Module Role.
Record t : Type := mk { key : string; name : string; desc : string }.
End Role.

(** A value of [ASSIGNMENTS]: [{"user_id": ..., "name": ...}]. *)
Module Assigned.
Record t : Type := mk { user_id : Z; name : string }.
End Assigned.

(** The two attributes of a Telegram user the handlers read. *)
Module User.
Record t : Type := mk { id : Z; full_name : string }.
End User.

Definition PROJECT_ROLES : list Role.t :=
  [ Role.mk "pm" "Project Manager & System Analyst"
      ("Responsible for project planning, requirement analysis, system documentation, use-case modeling, "
       +:+ "coordination among team members, and ensuring timely project delivery.");
    Role.mk "backend" "Backend Developer"
      ("Responsible for designing backend architecture, implementing REST APIs, handling authentication and "
       +:+ "authorization, managing complaint and feedback workflows, and integrating the database.");
    Role.mk "frontend" "Frontend Developer"
      ("Responsible for designing and implementing user interfaces, dashboards for users, officers, and administrators; "
       +:+ "ensuring responsiveness, usability, and API integration.");
    Role.mk "ml" "Machine Learning & Automation Engineer"
      ("Responsible for implementing complaint classification, priority prediction, and automatic assignment using NLP "
       +:+ "techniques such as sentence transformers, improving system intelligence.");
    Role.mk "devops" "Database, DevOps & Testing Engineer"
      ("Responsible for database schema design, ER diagrams, data integrity, Docker and deployment setup, system testing, "
       +:+ "and ensuring reliability and performance.") ].

(** ** Insertion-ordered dictionaries

    [ASSIGNMENTS] is iterated by [get_user_role], so it is kept as the
    sequence of its items in insertion order, the order Python iterates a
    dict in.  [d[k] = v] overwrites the value in place when [k] is present
    and appends a new item otherwise. *)
Section PyDict.
Context {K V : Type} `{EqDecision K}.

Fixpoint dict_get (d : list (K * V)) (k : K) : option V :=
  match d with
  | [] => None
  | (k', v) :: rest => if decide (k' = k) then Some v else dict_get rest k
  end.

(** [k in d] *)
Definition dict_mem (k : K) (d : list (K * V)) : bool :=
  match dict_get d k with Some _ => true | None => false end.

(** [d[k] = v] *)
Fixpoint dict_set (d : list (K * V)) (k : K) (v : V) : list (K * V) :=
  match d with
  | [] => [(k, v)]
  | (k', v') :: rest =>
      if decide (k' = k) then (k', v) :: rest else (k', v') :: dict_set rest k v
  end.

End PyDict.

(** The Assignment Store: the module globals
    [ASSIGNMENTS = dict()  # {role_key: {user_id, name}}] and
    [PENDING_CONFIRM = dict()  # {user_id: role_key}].
    [PENDING_CONFIRM] is only ever written by key, popped by key and
    cleared, never iterated, so it is a finite map. *)
Record store : Type := Store {
  ASSIGNMENTS : list (string * Assigned.t);
  PENDING_CONFIRM : gmap Z string
}.

(** Both dictionaries empty, as at module load. *)
Definition initial_store : store := Store [] ∅.

(** ** Utility functions *)

Definition get_role_by_key (role_key : string) : option Role.t :=
  List.find (fun role => String.eqb (Role.key role) role_key) PROJECT_ROLES.

Fixpoint get_user_role (assignments : list (string * Assigned.t)) (user_id : Z)
  : option string :=
  match assignments with
  | [] => None
  | (key, v) :: rest =>
      if Z.eqb (Assigned.user_id v) user_id then Some key
      else get_user_role rest user_id
  end.

Definition nl : string := String "010"%char "".

(** [sep.join(lines)] *)
Fixpoint join (sep : string) (lines : list string) : string :=
  match lines with
  | [] => ""
  | [l] => l
  | l :: rest => l +:+ sep +:+ join sep rest
  end.

Definition assigned_line (role : Role.t) (user : Assigned.t) : string :=
  "✅ *" +:+ Role.name role +:+ "*" +:+ nl +:+ "Assigned to: ["
  +:+ Assigned.name user +:+ "](tg://user?id="
  +:+ pretty (Assigned.user_id user) +:+ ")".

Definition available_line (role : Role.t) : string :=
  "🟦 *" +:+ Role.name role +:+ "*" +:+ nl +:+ "_(Available)_".

Definition get_assignments_text (assignments : list (string * Assigned.t)) : string :=
  join (nl +:+ nl)
    (List.map
       (fun role =>
          match dict_get assignments (Role.key role) with
          | Some user => assigned_line role user
          | None => available_line role
          end)
       PROJECT_ROLES).

(** ** The callback handler [roles_callback] *)

Inductive exn : Type :=
| TypeError   (** subscripting [None] *)
| IndexError. (** list index out of range *)

(** What a handler sends last, or the exception that escapes it. *)
Inductive reply : Type :=
| Alert (text : string)
    (** [query.answer(text, show_alert=True)] followed by [return] *)
| EditMessageText (text : string) (reply_markup : list (string * string))
    (** [query.edit_message_text(text, reply_markup=...)]; the markup is the
        row of buttons as (label, callback data), empty when none is given *)
| ReplyText (text : string)
    (** [update.message.reply_text(text)] *)
| Raise (e : exn)
| NoReply.

(** [s.split(":")] *)
Definition cons_head (c : ascii) (parts : list string) : list string :=
  match parts with
  | [] => [String c ""]
  | h :: t => String c h :: t
  end.

Fixpoint split_colon (s : string) : list string :=
  match s with
  | EmptyString => [""]
  | String c s' =>
      if Ascii.eqb c ":" then "" :: split_colon s'
      else cons_head c (split_colon s')
  end.

(** The branch [data.startswith("select:")], after
    [role_key = data.split(":")[1]]. *)
Definition on_select (st : store) (user : User.t) (role_key : string)
  : store * reply :=
  if dict_mem role_key (ASSIGNMENTS st) then
    (st, Alert "This role is already taken.")
  else if get_user_role (ASSIGNMENTS st) (User.id user) is Some _ then
    (st, Alert "You already selected a role!")
  else
    match get_role_by_key role_key with
    | None => (st, Alert "Invalid role!")
    | Some role =>
        (Store (ASSIGNMENTS st)
               (<[User.id user := role_key]> (PENDING_CONFIRM st)),
         EditMessageText
           ("*" +:+ Role.name role +:+ "*" +:+ nl +:+ nl +:+ Role.desc role
            +:+ nl +:+ nl +:+ "_Do you want to take this role?_")
           [("✅ Confirm", "confirm:" +:+ role_key); ("❌ Cancel", "cancel")])
    end.

(** The branch [data.startswith("confirm:")].  The two dictionaries are
    updated before the congratulation text is built, and building it
    subscripts [get_role_by_key(role_key)]: for a key outside the catalog
    the [TypeError] escapes with the update already made. *)
Definition on_confirm (st : store) (user : User.t) (role_key : string)
  : store * reply :=
  if dict_mem role_key (ASSIGNMENTS st) then
    (st, Alert "Sorry, this role is already taken!")
  else if get_user_role (ASSIGNMENTS st) (User.id user) is Some _ then
    (st, Alert "You can select only one role!")
  else
    let st' :=
      Store (dict_set (ASSIGNMENTS st) role_key
               (Assigned.mk (User.id user) (User.full_name user)))
            (delete (User.id user) (PENDING_CONFIRM st)) in
    match get_role_by_key role_key with
    | None => (st', Raise TypeError)
    | Some role =>
        (st',
         EditMessageText
           ("🎉 Congratulations, [" +:+ User.full_name user
            +:+ "](tg://user?id=" +:+ pretty (User.id user) +:+ ")!"
            +:+ nl +:+ nl +:+ "You are now assigned: *" +:+ Role.name role
            +:+ "*.")
           [])
    end.

(** The branch [data == "cancel"]: [PENDING_CONFIRM.pop(user.id, None)]. *)
Definition on_cancel (st : store) (user : User.t) : store * reply :=
  (Store (ASSIGNMENTS st) (delete (User.id user) (PENDING_CONFIRM st)),
   EditMessageText
     "❌ Role selection cancelled. You can pick a role again using /roles." []).

(** [parts[1]], then the branch [k] on it. *)
Definition with_role_key (st : store) (data : string)
    (k : string -> store * reply) : store * reply :=
  match split_colon data !! 1%nat with
  | Some role_key => k role_key
  | None => (st, Raise IndexError)
  end.

Definition roles_callback (st : store) (user : User.t) (data : string)
  : store * reply :=
  if String.eqb data "noop" then
    (st, Alert "This role is already assigned.")
  else if String.prefix "select:" data then
    with_role_key st data (on_select st user)
  else if String.prefix "confirm:" data then
    with_role_key st data (on_confirm st user)
  else if String.eqb data "cancel" then
    on_cancel st user
  else (st, NoReply).

(** ** The [/reset] command and runs of the negotiator *)

(** The operations of the claim negotiator, by the claimant (or caller)
    and the role key they carry. *)
Inductive op : Type :=
| Select (claimant : User.t) (role_key : string)
| Confirm (claimant : User.t) (role_key : string)
| Cancel (claimant : User.t)
| Reset (caller : Z).

(** A button press with its callback data, or the [/reset] command. *)
Inductive update : Type :=
| CallbackQuery (from_user : User.t) (data : string)
| ResetCommand (effective_user : Z).

(** One executed operation: the store before, the reply, the store after. *)
Record event : Type := Event {
  ev_op : op; ev_pre : store; ev_reply : reply; ev_post : store
}.

Definition is_confirm (e : event) : bool :=
  match ev_op e with Confirm _ _ => true | _ => false end.

(** [shuffle p q s]: the schedule [s] interleaves the programs [p] and [q],
    keeping the order of each. *)
Inductive shuffle {A : Type} : list A → list A → list A → Prop :=
| shuffle_nil : shuffle [] [] []
| shuffle_left x p q s : shuffle p q s → shuffle (x :: p) q (x :: s)
| shuffle_right x p q s : shuffle p q s → shuffle p (x :: q) (x :: s).

Section Negotiator.
(** The admin allow-list, read from the environment at start-up. *)
Variable ADMIN_IDS : list Z.

Definition is_admin (user_id : Z) : bool := bool_decide (user_id ∈ ADMIN_IDS).

Definition reset (st : store) (user_id : Z) : store * reply :=
  if negb (is_admin user_id) then
    (st, ReplyText "⛔ *You are not authorized to reset assignments.*")
  else
    (Store [] ∅,
     ReplyText ("🔄 All role assignments have been reset!" +:+ nl
                +:+ "Everyone can select roles again.")).

Definition step (st : store) (o : op) : store * reply :=
  match o with
  | Select c r => on_select st c r
  | Confirm c r => on_confirm st c r
  | Cancel c => on_cancel st c
  | Reset caller => reset st caller
  end.

(** The store after a sequence of operations. *)
Definition run (ops : list op) (st : store) : store :=
  fold_left (fun s o => fst (step s o)) ops st.

(** The events of a run, in order. *)
Fixpoint trace (ops : list op) (st : store) : list event :=
  match ops with
  | [] => []
  | o :: rest =>
      Event o st (snd (step st o)) (fst (step st o))
      :: trace rest (fst (step st o))
  end.

(** One update, and a sequence of them. *)
Definition handle (st : store) (u : update) : store * reply :=
  match u with
  | CallbackQuery from_user data => roles_callback st from_user data
  | ResetCommand effective_user => reset st effective_user
  end.

Definition serve (us : list update) (st : store) : store :=
  fold_left (fun s u => fst (handle s u)) us st.

End Negotiator.

(** The replies the error taxonomy of the negotiator is read off. *)
Definition RoleTaken_select : reply := Alert "This role is already taken.".
Definition RoleTaken_confirm : reply := Alert "Sorry, this role is already taken!".
Definition AlreadyAssigned_confirm : reply := Alert "You can select only one role!".
Definition InvalidRole : reply := Alert "Invalid role!".
Definition Unauthorized : reply :=
  ReplyText "⛔ *You are not authorized to reset assignments.*".

Definition congratulation (user : User.t) (role : Role.t) : reply :=
  EditMessageText
    ("🎉 Congratulations, [" +:+ User.full_name user
     +:+ "](tg://user?id=" +:+ pretty (User.id user) +:+ ")!"
     +:+ nl +:+ nl +:+ "You are now assigned: *" +:+ Role.name role +:+ "*.")
    [].

(** The Assignment a confirmation by [user] stores. *)
Definition assignment_of (user : User.t) : Assigned.t :=
  Assigned.mk (User.id user) (User.full_name user).

(** ** Stores used as examples *)

(** The store after claimant 1 has selected ["pm"]. *)
Definition u1_selected_pm : store :=
  fst (on_select initial_store (User.mk 1 "u1") "pm").

(** A store with one Assignment and one pending claim. *)
Definition busy_store : store :=
  Store [("pm", Assigned.mk 1 "u1")] {[ 2 := "backend" ]}.

(** ** The keyboard and the command handlers that only read the store *)

(** [role_selection_keyboard()]: one row with one button per catalog role,
    as (label, callback data).  A taken role gets a ["noop"] button that
    names its holder, a free one a ["select:<key>"] button. *)
Definition role_selection_keyboard (assignments : list (string * Assigned.t))
  : list (list (string * string)) :=
  List.map
    (fun role =>
       match dict_get assignments (Role.key role) with
       | Some user =>
           [(Role.name role +:+ " (Taken by " +:+ Assigned.name user +:+ ")",
             "noop")]
       | None => [(Role.name role, "select:" +:+ Role.key role)]
       end)
    PROJECT_ROLES.

(** [/start] and [/roles] in a group: the text and the keyboard passed to
    [reply_text]. *)
Definition start_or_roles (assignments : list (string * Assigned.t))
  : string * list (list (string * string)) :=
  ("👋 *Welcome to the Complaint Management & Feedback Platform Group Role Selector!*"
   +:+ nl +:+ nl
   +:+ "Below are the project roles. Click a role to view its description and claim it."
   +:+ nl +:+ nl +:+ get_assignments_text assignments,
   role_selection_keyboard assignments).

(** [/status] *)
Definition status (assignments : list (string * Assigned.t)) : reply :=
  ReplyText ("📋 *Current Role Assignments:*" +:+ nl +:+ nl
             +:+ get_assignments_text assignments).

Definition not_selected_yet : reply :=
  ReplyText "You haven't selected a role yet! Use /roles to pick one.".

Definition your_role (role : Role.t) : reply :=
  ReplyText ("🌟 Your role:" +:+ nl +:+ nl +:+ "*" +:+ Role.name role +:+ "*"
             +:+ nl +:+ Role.desc role).

(** [/myrole].  [if user_role_key:] tests the truth value of the key, so the
    empty key counts as no role; the role found for the key is subscripted
    without a check. *)
Definition myrole (assignments : list (string * Assigned.t)) (user_id : Z)
  : reply :=
  match get_user_role assignments user_id with
  | Some user_role_key =>
      if String.eqb user_role_key "" then not_selected_yet
      else
        match get_role_by_key user_role_key with
        | Some role => your_role role
        | None => Raise TypeError
        end
  | None => not_selected_yet
  end.

(** No [":"] occurs in the string. *)
Fixpoint colon_free (s : string) : bool :=
  match s with
  | EmptyString => true
  | String c s' => negb (Ascii.eqb c ":") && colon_free s'
  end.

(** ** Facts about the dictionaries *)

Section PyDictFacts.
Context {K V : Type} `{EqDecision K}.
Implicit Types (d : list (K * V)) (k : K) (v : V).

Lemma dict_mem_true d k : dict_mem k d = true ↔ k ∈ d.*1.
Proof.
  unfold dict_mem. induction d as [|[k' v'] d IH]; simpl.
  - split; [done | by intros ?%elem_of_nil].
  - rewrite elem_of_cons. destruct (decide (k' = k)) as [->|Hne].
    + split; auto.
    + rewrite IH. split; [auto | intros [?|?]; [congruence | done]].
Qed.

Lemma dict_mem_false d k : dict_mem k d = false ↔ k ∉ d.*1.
Proof. rewrite <- dict_mem_true. destruct (dict_mem k d); split; congruence. Qed.

(** Storing under an absent key appends the item. *)
Lemma dict_set_fresh d k v : dict_mem k d = false → dict_set d k v = d ++ [(k, v)].
Proof.
  unfold dict_mem. induction d as [|[k' v'] d IH]; simpl; [done|].
  destruct (decide (k' = k)); [done|]. intros Hd. by rewrite IH.
Qed.

Lemma dict_get_app_fresh d k v k' :
  dict_get (d ++ [(k, v)]) k' =
  match dict_get d k' with
  | Some x => Some x
  | None => if decide (k = k') then Some v else None
  end.
Proof.
  induction d as [|[k0 v0] d IH]; simpl; [done|].
  by destruct (decide (k0 = k')).
Qed.

Lemma dict_mem_app_fresh d k v : dict_mem k (d ++ [(k, v)]) = true.
Proof.
  unfold dict_mem. rewrite dict_get_app_fresh.
  destruct (dict_get d k); [done|]. by rewrite decide_True.
Qed.

End PyDictFacts.

Lemma get_user_role_None assignments user_id :
  get_user_role assignments user_id = None ↔
  user_id ∉ Assigned.user_id <$> assignments.*2.
Proof.
  induction assignments as [|[key v] rest IH]; simpl.
  - split; [intros _ ?%elem_of_nil; done | done].
  - rewrite not_elem_of_cons. destruct (Z.eqb_spec (Assigned.user_id v) user_id).
    + split; [done | intros [? _]; congruence].
    + rewrite IH. split; [auto | by intros [_ ?]].
Qed.

(** ** Facts about the branches of [roles_callback] *)

(** [select] never touches [ASSIGNMENTS]. *)
Lemma on_select_assignments st c r :
  ASSIGNMENTS (fst (on_select st c r)) = ASSIGNMENTS st.
Proof.
  unfold on_select. destruct (dict_mem r _); [done|].
  destruct (get_user_role _ _); [done|].
  by destruct (get_role_by_key r).
Qed.

Lemma on_select_ok st c r role :
  dict_mem r (ASSIGNMENTS st) = false →
  get_user_role (ASSIGNMENTS st) (User.id c) = None →
  get_role_by_key r = Some role →
  fst (on_select st c r) =
    Store (ASSIGNMENTS st) (<[User.id c := r]> (PENDING_CONFIRM st)).
Proof. unfold on_select. by intros -> -> ->. Qed.

Lemma on_confirm_taken st c r :
  dict_mem r (ASSIGNMENTS st) = true → on_confirm st c r = (st, RoleTaken_confirm).
Proof. unfold on_confirm. by intros ->. Qed.

Lemma on_confirm_has_role st c r :
  dict_mem r (ASSIGNMENTS st) = false →
  is_Some (get_user_role (ASSIGNMENTS st) (User.id c)) →
  on_confirm st c r = (st, AlreadyAssigned_confirm).
Proof. unfold on_confirm. by intros -> [k ->]. Qed.

Lemma on_confirm_fresh st c r :
  dict_mem r (ASSIGNMENTS st) = false →
  get_user_role (ASSIGNMENTS st) (User.id c) = None →
  on_confirm st c r =
    (Store (ASSIGNMENTS st ++ [(r, assignment_of c)])
           (delete (User.id c) (PENDING_CONFIRM st)),
     match get_role_by_key r with
     | Some role => congratulation c role
     | None => Raise TypeError
     end).
Proof.
  unfold on_confirm. intros Hm ->. rewrite Hm.
  rewrite (dict_set_fresh _ _ _ Hm). by destruct (get_role_by_key r).
Qed.

Lemma store_eta st : Store (ASSIGNMENTS st) (PENDING_CONFIRM st) = st.
Proof. by destruct st. Qed.

(** ** Confirmation does not consult [PENDING_CONFIRM] *)

(** C1, as amended.  For a role key of the catalog, what [confirm] does is
    decided by [ASSIGNMENTS] alone, whether or not the claimant has a pending
    claim for the role.  It is refused with the store untouched when the role
    is already assigned or the claimant already holds a role, and only then;
    otherwise the Assignment is stored at the end of [ASSIGNMENTS], the
    claimant's pending entry is dropped and the congratulation is sent.
    Replacing [PENDING_CONFIRM] by any other map changes neither the reply
    nor the Assignments that result. *)
Theorem confirm_ignores_pending st c r role :
  get_role_by_key r = Some role →
  (dict_mem r (ASSIGNMENTS st) = true →
     on_confirm st c r = (st, RoleTaken_confirm)) ∧
  (dict_mem r (ASSIGNMENTS st) = false →
   is_Some (get_user_role (ASSIGNMENTS st) (User.id c)) →
     on_confirm st c r = (st, AlreadyAssigned_confirm)) ∧
  (dict_mem r (ASSIGNMENTS st) = false →
   get_user_role (ASSIGNMENTS st) (User.id c) = None →
     on_confirm st c r =
       (Store (ASSIGNMENTS st ++ [(r, assignment_of c)])
              (delete (User.id c) (PENDING_CONFIRM st)),
        congratulation c role)) ∧
  (fst (on_confirm st c r) = st ↔
     dict_mem r (ASSIGNMENTS st) = true ∨
     is_Some (get_user_role (ASSIGNMENTS st) (User.id c))) ∧
  (∀ pending : gmap Z string,
     snd (on_confirm (Store (ASSIGNMENTS st) pending) c r)
       = snd (on_confirm st c r) ∧
     ASSIGNMENTS (fst (on_confirm (Store (ASSIGNMENTS st) pending) c r))
       = ASSIGNMENTS (fst (on_confirm st c r))).
Proof.
  intros Hr. split; [apply on_confirm_taken|].
  split; [apply on_confirm_has_role|].
  split; [intros Hm Hu; by rewrite on_confirm_fresh, Hr|].
  split.
  - destruct (dict_mem r (ASSIGNMENTS st)) eqn:Hm.
    { rewrite on_confirm_taken by done. split; auto. }
    destruct (get_user_role (ASSIGNMENTS st) (User.id c)) as [held|] eqn:Hu.
    { rewrite on_confirm_has_role by (rewrite ?Hu; eauto). split; eauto. }
    rewrite on_confirm_fresh by done. simpl. split.
    + intros Heq. apply (f_equal ASSIGNMENTS) in Heq. simpl in Heq.
      apply (f_equal length) in Heq. rewrite length_app in Heq. simpl in Heq. lia.
    + intros [?|[? ?]]; congruence.
  - intros pending.
    destruct (dict_mem r (ASSIGNMENTS st)) eqn:Hm.
    { by rewrite !on_confirm_taken. }
    destruct (get_user_role (ASSIGNMENTS st) (User.id c)) as [held|] eqn:Hu.
    { rewrite !on_confirm_has_role; simpl; rewrite ?Hu; eauto. }
    by rewrite !on_confirm_fresh.
Qed.

Lemma confirm_ignores_pending_witness :
  on_confirm u1_selected_pm (User.mk 2 "u2") "pm" =
    (Store [("pm", Assigned.mk 2 "u2")] {[ 1 := "pm" ]},
     congratulation (User.mk 2 "u2")
       (Role.mk "pm" "Project Manager & System Analyst"
          ("Responsible for project planning, requirement analysis, system documentation, use-case modeling, "
           +:+ "coordination among team members, and ensuring timely project delivery."))).
Proof.
  destruct (confirm_ignores_pending u1_selected_pm (User.mk 2 "u2") "pm"
              (Role.mk "pm" "Project Manager & System Analyst"
                 ("Responsible for project planning, requirement analysis, system documentation, use-case modeling, "
                  +:+ "coordination among team members, and ensuring timely project delivery."))
              eq_refl)
    as (_ & _ & Hfresh & _ & _).
  rewrite (Hfresh eq_refl eq_refl). reflexivity.
Defined.

(** C1 fails on the code (Scenario C): claimant 2 never selected, claimant 1 has
    ["pm"] pending, and claimant 2's [confirm] of ["pm"] stores an
    Assignment. *)
Lemma confirm_without_pending_assigns :
  PENDING_CONFIRM u1_selected_pm !! 2 = None ∧
  PENDING_CONFIRM u1_selected_pm !! 1 = Some "pm" ∧
  ASSIGNMENTS u1_selected_pm = [] ∧
  fst (on_confirm u1_selected_pm (User.mk 2 "u2") "pm") ≠ u1_selected_pm ∧
  ASSIGNMENTS (fst (roles_callback u1_selected_pm (User.mk 2 "u2") "confirm:pm"))
    = [("pm", Assigned.mk 2 "u2")].
Proof.
  repeat split; try (vm_compute; reflexivity).
  intros Heq. apply (f_equal ASSIGNMENTS) in Heq. vm_compute in Heq. discriminate.
Qed.

(** ** Error paths and the store *)

(** Every path of [select] and [confirm] that ends in an alert returns the
    store it was given. *)
Lemma alert_leaves_store st c r text :
  (snd (on_select st c r) = Alert text → fst (on_select st c r) = st) ∧
  (snd (on_confirm st c r) = Alert text → fst (on_confirm st c r) = st).
Proof.
  unfold on_select, on_confirm. split.
  - destruct (dict_mem r _); [done|]. destruct (get_user_role _ _); [done|].
    by destruct (get_role_by_key r).
  - destruct (dict_mem r _); [done|]. destruct (get_user_role _ _); [done|].
    by destruct (get_role_by_key r).
Qed.

(** C2, on the code.  A [confirm] that carries a key outside the catalog
    ends in [TypeError], and by then the Assignment under that key has been
    stored: the error path has mutated [ASSIGNMENTS]. *)
Theorem confirm_unknown_role_mutates_then_raises :
  get_role_by_key "qa" = None ∧
  on_select initial_store (User.mk 1 "Ann") "qa" = (initial_store, InvalidRole) ∧
  roles_callback initial_store (User.mk 1 "Ann") "confirm:qa" =
    (Store [("qa", Assigned.mk 1 "Ann")] ∅, Raise TypeError).
Proof. repeat split; vm_compute; reflexivity. Qed.

(** ** Selecting again overwrites the pending claim *)

(** C6.  A claimant with a pending claim for [r1] who successfully selects
    another role [r2] has [r2] as the pending claim, and no other; the
    Assignments are untouched, so [r1] stays unassigned, and so are the
    pending claims of everybody else. *)
Theorem select_overwrites_pending st c r1 r2 role :
  PENDING_CONFIRM st !! User.id c = Some r1 →
  r1 ≠ r2 →
  dict_mem r2 (ASSIGNMENTS st) = false →
  get_user_role (ASSIGNMENTS st) (User.id c) = None →
  get_role_by_key r2 = Some role →
  let st' := fst (on_select st c r2) in
  PENDING_CONFIRM st' !! User.id c = Some r2 ∧
  PENDING_CONFIRM st' !! User.id c ≠ Some r1 ∧
  (∀ c', c' ≠ User.id c → PENDING_CONFIRM st' !! c' = PENDING_CONFIRM st !! c') ∧
  ASSIGNMENTS st' = ASSIGNMENTS st ∧
  (dict_mem r1 (ASSIGNMENTS st) = false → dict_mem r1 (ASSIGNMENTS st') = false) ∧
  ∃ text markup, snd (on_select st c r2) = EditMessageText text markup.
Proof.
  intros Hp Hne Hm Hu Hr st'. subst st'.
  rewrite (on_select_ok _ _ _ _ Hm Hu Hr). simpl.
  rewrite lookup_insert_eq. repeat split.
  - congruence.
  - intros c' Hc'. by rewrite lookup_insert_ne.
  - done.
  - unfold on_select. rewrite Hm, Hu, Hr. simpl. eauto.
Qed.

Lemma select_overwrites_pending_witness :
  let st := fst (on_select u1_selected_pm (User.mk 1 "u1") "backend") in
  PENDING_CONFIRM st !! 1 = Some "backend" ∧
  dict_mem "pm" (ASSIGNMENTS st) = false.
Proof.
  destruct (select_overwrites_pending u1_selected_pm (User.mk 1 "u1")
              "pm" "backend"
              (Role.mk "backend" "Backend Developer"
                 ("Responsible for designing backend architecture, implementing REST APIs, handling authentication and "
                  +:+ "authorization, managing complaint and feedback workflows, and integrating the database.")))
    as (Hnew & _ & _ & _ & Hfree & _).
  - vm_compute; reflexivity.
  - discriminate.
  - reflexivity.
  - reflexivity.
  - reflexivity.
  - split; [exact Hnew | apply Hfree; reflexivity].
Defined.

(** ** Reset *)

(** C7.  [reset] by a caller outside [ADMIN_IDS] answers that the caller is
    not authorized and returns the store as it was; by a caller in
    [ADMIN_IDS] it empties both dictionaries. *)
Theorem reset_authorization (ADMIN_IDS : list Z) st caller :
  (caller ∉ ADMIN_IDS → reset ADMIN_IDS st caller = (st, Unauthorized)) ∧
  (caller ∈ ADMIN_IDS →
     ASSIGNMENTS (fst (reset ADMIN_IDS st caller)) = [] ∧
     PENDING_CONFIRM (fst (reset ADMIN_IDS st caller)) = ∅).
Proof.
  unfold reset, is_admin. split; intros Hc.
  - by rewrite bool_decide_eq_false_2.
  - by rewrite bool_decide_eq_true_2.
Qed.

Lemma reset_authorization_witness :
  reset [7; 9] busy_store 1 = (busy_store, Unauthorized) ∧
  ASSIGNMENTS (fst (reset [7; 9] busy_store 9)) = [] ∧
  PENDING_CONFIRM (fst (reset [7; 9] busy_store 9)) = ∅.
Proof.
  destruct (reset_authorization [7; 9] busy_store 1) as [Hno _].
  destruct (reset_authorization [7; 9] busy_store 9) as [_ Hyes].
  split.
  - apply Hno. intros Hin. repeat (apply elem_of_cons in Hin as [Hin|Hin]; [discriminate|]).
    by apply elem_of_nil in Hin.
  - apply Hyes. apply list_elem_of_further, list_elem_of_here.
Defined.

(** C9.  After a [reset] by an admin the status text is the status text of
    the initial store, in which every catalog role is shown as available. *)
Theorem reset_status_text (ADMIN_IDS : list Z) st caller :
  caller ∈ ADMIN_IDS →
  get_assignments_text (ASSIGNMENTS (fst (reset ADMIN_IDS st caller)))
    = get_assignments_text (ASSIGNMENTS initial_store) ∧
  get_assignments_text (ASSIGNMENTS (fst (reset ADMIN_IDS st caller)))
    = join (nl +:+ nl) (available_line <$> PROJECT_ROLES).
Proof.
  intros Hc. unfold reset, is_admin. rewrite bool_decide_eq_true_2 by done.
  split; reflexivity.
Qed.

Lemma reset_status_text_witness :
  get_assignments_text (ASSIGNMENTS (fst (reset [7; 9] busy_store 7)))
    = join (nl +:+ nl) (available_line <$> PROJECT_ROLES).
Proof.
  apply (reset_status_text [7; 9] busy_store 7). apply list_elem_of_here.
Defined.

(** ** Cancel *)

(** C8.  Cancelling twice leaves the store that cancelling once leaves;
    cancelling with nothing pending returns the store unchanged; and in
    every case the handler ends by editing the message, not by an
    exception. *)
Theorem cancel_idempotent st c :
  fst (roles_callback (fst (roles_callback st c "cancel")) c "cancel")
    = fst (roles_callback st c "cancel") ∧
  (PENDING_CONFIRM st !! User.id c = None →
     fst (roles_callback st c "cancel") = st) ∧
  snd (roles_callback st c "cancel") =
    EditMessageText
      "❌ Role selection cancelled. You can pick a role again using /roles." [].
Proof.
  change (roles_callback st c "cancel") with (on_cancel st c).
  change (roles_callback (fst (on_cancel st c)) c "cancel")
    with (on_cancel (fst (on_cancel st c)) c).
  unfold on_cancel; simpl. repeat split.
  - by rewrite delete_delete_eq.
  - intros Hp. rewrite delete_id by done. apply store_eta.
Qed.

Lemma cancel_idempotent_witness :
  fst (roles_callback busy_store (User.mk 1 "u1") "cancel") = busy_store.
Proof.
  destruct (cancel_idempotent busy_store (User.mk 1 "u1")) as (_ & Hnone & _).
  apply Hnone. vm_compute; reflexivity.
Defined.

(** C10.  [cancel] by [c] leaves [ASSIGNMENTS] as it was and the pending
    claim of every claimant other than [c] as it was. *)
Theorem cancel_frame st c :
  ASSIGNMENTS (fst (roles_callback st c "cancel")) = ASSIGNMENTS st ∧
  ∀ c', c' ≠ User.id c →
    PENDING_CONFIRM (fst (roles_callback st c "cancel")) !! c'
      = PENDING_CONFIRM st !! c'.
Proof.
  change (roles_callback st c "cancel") with (on_cancel st c).
  unfold on_cancel; simpl. split; [done|].
  intros c' Hc'. by rewrite lookup_delete_ne.
Qed.

Lemma cancel_frame_witness :
  PENDING_CONFIRM (fst (roles_callback busy_store (User.mk 1 "u1") "cancel")) !! 2
    = Some "backend".
Proof.
  destruct (cancel_frame busy_store (User.mk 1 "u1")) as [_ Hothers].
  rewrite (Hothers 2) by discriminate. vm_compute; reflexivity.
Defined.

(** ** Two claimants racing for one role *)

Lemma shuffle_two_two {A : Type} (a1 a2 b1 b2 : A) s :
  shuffle [a1; a2] [b1; b2] s →
  s = [a1; a2; b1; b2] ∨ s = [a1; b1; a2; b2] ∨ s = [a1; b1; b2; a2] ∨
  s = [b1; a1; a2; b2] ∨ s = [b1; a1; b2; a2] ∨ s = [b1; b2; a1; a2].
Proof.
  intros H.
  repeat match goal with
         | H : shuffle _ _ _ |- _ => inversion H; clear H; subst
         end; auto 10.
Qed.

(** [select] steps are transparent to what the goal reads of [ASSIGNMENTS]. *)
Ltac select_frames :=
  rewrite ?on_select_assignments; simpl; rewrite ?on_select_assignments.

(** Resolve one [on_confirm] of the goal: on a store where the role is free
    and the claimant holds none it stores the Assignment, on a store where
    the role has just been stored it is refused. *)
Ltac confirm_step :=
  match goal with
  | |- context [on_confirm ?s ?c ?r] =>
      first
        [ rewrite (on_confirm_fresh s c r) by (select_frames; assumption)
        | rewrite (on_confirm_taken s c r)
            by (select_frames; apply dict_mem_app_fresh) ];
      simpl
  end.

Local Opaque on_select on_confirm.

(** C3.  Two distinct claimants each select and then confirm the same role,
    from a store where the role is free and neither holds a role.  In every
    interleaving of the two programs exactly two confirms are executed: the
    first stores the Assignment of the role to its claimant, on a store whose
    Assignments are still the initial ones, and is answered by the
    congratulation when the role is in the catalog; the second is answered
    that the role is already taken and returns its store unchanged.  The run
    ends with that single Assignment added. *)
Theorem race_safety (ADMIN_IDS : list Z) st c1 c2 r sched :
  User.id c1 ≠ User.id c2 →
  dict_mem r (ASSIGNMENTS st) = false →
  get_user_role (ASSIGNMENTS st) (User.id c1) = None →
  get_user_role (ASSIGNMENTS st) (User.id c2) = None →
  shuffle [Select c1 r; Confirm c1 r] [Select c2 r; Confirm c2 r] sched →
  ∃ w l pre_w reply_w pre_l,
    ((w = c1 ∧ l = c2) ∨ (w = c2 ∧ l = c1)) ∧
    List.filter is_confirm (trace ADMIN_IDS sched st) =
      [ Event (Confirm w r) pre_w reply_w
          (Store (ASSIGNMENTS pre_w ++ [(r, assignment_of w)])
                 (delete (User.id w) (PENDING_CONFIRM pre_w)));
        Event (Confirm l r) pre_l RoleTaken_confirm pre_l ] ∧
    ASSIGNMENTS pre_w = ASSIGNMENTS st ∧
    (∀ role, get_role_by_key r = Some role → reply_w = congratulation w role) ∧
    ASSIGNMENTS (run ADMIN_IDS sched st) = ASSIGNMENTS st ++ [(r, assignment_of w)].
Proof.
  intros Hne Hfree H1 H2 Hs. unfold run.
  apply shuffle_two_two in Hs as [->|[->|[->|[->|[->| ->]]]]]; simpl;
    repeat confirm_step;
    (do 5 eexists; refine (conj _ (conj eq_refl _));
     [ (by left) || (by right)
     | select_frames; split; [done|]; split; [by intros role ->|done] ]).
Qed.

Local Transparent on_select on_confirm.

Lemma race_safety_witness :
  ∃ w l pre_w reply_w pre_l,
    ((w = User.mk 1 "u1" ∧ l = User.mk 2 "u2") ∨
     (w = User.mk 2 "u2" ∧ l = User.mk 1 "u1")) ∧
    List.filter is_confirm
      (trace []
         [Select (User.mk 1 "u1") "pm"; Select (User.mk 2 "u2") "pm";
          Confirm (User.mk 2 "u2") "pm"; Confirm (User.mk 1 "u1") "pm"]
         initial_store) =
      [ Event (Confirm w "pm") pre_w reply_w
          (Store (ASSIGNMENTS pre_w ++ [("pm", assignment_of w)])
                 (delete (User.id w) (PENDING_CONFIRM pre_w)));
        Event (Confirm l "pm") pre_l RoleTaken_confirm pre_l ] ∧
    ASSIGNMENTS pre_w = ASSIGNMENTS initial_store ∧
    (∀ role, get_role_by_key "pm" = Some role → reply_w = congratulation w role) ∧
    ASSIGNMENTS
      (run []
         [Select (User.mk 1 "u1") "pm"; Select (User.mk 2 "u2") "pm";
          Confirm (User.mk 2 "u2") "pm"; Confirm (User.mk 1 "u1") "pm"]
         initial_store)
      = ASSIGNMENTS initial_store ++ [("pm", assignment_of w)].
Proof.
  apply (race_safety [] initial_store (User.mk 1 "u1") (User.mk 2 "u2") "pm").
  - discriminate.
  - reflexivity.
  - reflexivity.
  - reflexivity.
  - apply shuffle_left, shuffle_right, shuffle_right, shuffle_left, shuffle_nil.
Defined.

(** ** Invariants of the reachable stores *)

Lemma run_snoc (ADMIN_IDS : list Z) ops o st :
  run ADMIN_IDS (ops ++ [o]) st = fst (step ADMIN_IDS (run ADMIN_IDS ops st) o).
Proof. unfold run. by rewrite fold_left_app. Qed.

(** A property of the initial store that every operation preserves holds
    after every sequence of operations. *)
Lemma run_invariant (ADMIN_IDS : list Z) (P : store → Prop) :
  P initial_store →
  (∀ st o, P st → P (fst (step ADMIN_IDS st o))) →
  ∀ ops, P (run ADMIN_IDS ops initial_store).
Proof.
  intros Hinit Hstep ops. induction ops as [|o ops IH] using rev_ind; [done|].
  rewrite run_snoc. by apply Hstep.
Qed.

(** What one operation can do to [ASSIGNMENTS]: nothing, append the
    Assignment of a free role to a claimant who holds none, or empty it. *)
Lemma step_assignments (ADMIN_IDS : list Z) st o :
  ASSIGNMENTS (fst (step ADMIN_IDS st o)) = ASSIGNMENTS st ∨
  (∃ c r, o = Confirm c r ∧
          dict_mem r (ASSIGNMENTS st) = false ∧
          get_user_role (ASSIGNMENTS st) (User.id c) = None ∧
          ASSIGNMENTS (fst (step ADMIN_IDS st o))
            = ASSIGNMENTS st ++ [(r, assignment_of c)]) ∨
  (∃ caller, o = Reset caller ∧ caller ∈ ADMIN_IDS ∧
             fst (step ADMIN_IDS st o) = initial_store).
Proof.
  destruct o as [c r|c r|c|caller]; simpl.
  - left. apply on_select_assignments.
  - destruct (dict_mem r (ASSIGNMENTS st)) eqn:Hm.
    { left. by rewrite on_confirm_taken. }
    destruct (get_user_role (ASSIGNMENTS st) (User.id c)) eqn:Hu.
    { left. by rewrite on_confirm_has_role. }
    right; left. exists c, r. by rewrite on_confirm_fresh.
  - by left.
  - unfold reset, is_admin. case_bool_decide; simpl; [|by left].
    right; right. by exists caller.
Qed.

(** What one operation can do to the pending claim of a claimant: nothing,
    drop it, or set it to a role that has no Assignment. *)
Lemma step_pending (ADMIN_IDS : list Z) st o c :
  let st' := fst (step ADMIN_IDS st o) in
  PENDING_CONFIRM st' !! c = PENDING_CONFIRM st !! c ∨
  PENDING_CONFIRM st' !! c = None ∨
  (∃ r, PENDING_CONFIRM st' !! c = Some r ∧ dict_mem r (ASSIGNMENTS st) = false).
Proof.
  destruct o as [u r|u r|u|caller]; simpl.
  - unfold on_select. destruct (dict_mem r (ASSIGNMENTS st)) eqn:Hm; [by left|].
    destruct (get_user_role _ _); [by left|].
    destruct (get_role_by_key r); [|by left]. simpl.
    destruct (decide (User.id u = c)) as [<-|Hc].
    + right; right. exists r. by rewrite lookup_insert_eq.
    + left. by rewrite lookup_insert_ne.
  - unfold on_confirm. destruct (dict_mem r (ASSIGNMENTS st)); [by left|].
    destruct (get_user_role _ _); [by left|].
    assert (delete (User.id u) (PENDING_CONFIRM st) !! c = PENDING_CONFIRM st !! c
            ∨ delete (User.id u) (PENDING_CONFIRM st) !! c = None) as Hd.
    { destruct (decide (User.id u = c)) as [<-|Hc].
      - right. apply lookup_delete_eq.
      - left. by apply lookup_delete_ne. }
    destruct (get_role_by_key r); simpl; tauto.
  - destruct (decide (User.id u = c)) as [<-|Hc].
    + right; left. apply lookup_delete_eq.
    + left. by apply lookup_delete_ne.
  - unfold reset. destruct (negb _); simpl; [by left|]. right; left. done.
Qed.

Lemma keys_NoDup (ADMIN_IDS : list Z) ops :
  NoDup (ASSIGNMENTS (run ADMIN_IDS ops initial_store)).*1.
Proof.
  apply (run_invariant ADMIN_IDS (λ st, NoDup (ASSIGNMENTS st).*1)).
  - apply NoDup_nil_2.
  - intros st o Hnd.
    destruct (step_assignments ADMIN_IDS st o)
      as [->|[(c & r & _ & Hm & _ & ->)|(caller & _ & _ & ->)]]; [done| |].
    + rewrite fmap_app. simpl. apply NoDup_app. split; [done|]. split.
      * intros k Hk ->%list_elem_of_singleton. by apply dict_mem_false in Hm.
      * apply NoDup_singleton.
    + apply NoDup_nil_2.
Qed.

(** C5.  After any sequence of operations from the initial store the user
    ids of the stored Assignments are pairwise distinct: no claimant is the
    holder in two of them. *)
Theorem one_assignment_per_claimant (ADMIN_IDS : list Z) ops :
  NoDup (Assigned.user_id <$> (ASSIGNMENTS (run ADMIN_IDS ops initial_store)).*2).
Proof.
  apply (run_invariant ADMIN_IDS
           (λ st, NoDup (Assigned.user_id <$> (ASSIGNMENTS st).*2))).
  - apply NoDup_nil_2.
  - intros st o Hnd.
    destruct (step_assignments ADMIN_IDS st o)
      as [->|[(c & r & _ & _ & Hu & ->)|(caller & _ & _ & ->)]]; [done| |].
    + rewrite !fmap_app. simpl. apply NoDup_app. split; [done|]. split.
      * intros k Hk ->%list_elem_of_singleton. by apply get_user_role_None in Hu.
      * apply NoDup_singleton.
    + apply NoDup_nil_2.
Qed.

(** C4, as amended.  After any sequence of operations no role key is stored
    twice in [ASSIGNMENTS]; and whatever operation comes next, a role that
    has an Assignment gains no pending claim that was not there before, and
    keeps its Assignment unless the operation is an admin's reset. *)
Theorem assigned_role_stays_exclusive (ADMIN_IDS : list Z) ops :
  let st := run ADMIN_IDS ops initial_store in
  NoDup (ASSIGNMENTS st).*1 ∧
  ∀ o r a, dict_get (ASSIGNMENTS st) r = Some a →
    let st' := fst (step ADMIN_IDS st o) in
    (∀ c, PENDING_CONFIRM st' !! c = Some r → PENDING_CONFIRM st !! c = Some r) ∧
    (dict_get (ASSIGNMENTS st') r = Some a ∨
     ∃ caller, o = Reset caller ∧ caller ∈ ADMIN_IDS ∧ st' = initial_store).
Proof.
  intros st. split; [apply keys_NoDup|]. clearbody st.
  intros o r a Hr st'. subst st'. split.
  - intros c Hc.
    destruct (step_pending ADMIN_IDS st o c) as [<-|[Hn|(r' & Hr' & Hfree)]];
      [done|congruence|].
    assert (r' = r) as -> by congruence.
    unfold dict_mem in Hfree. by rewrite Hr in Hfree.
  - destruct (step_assignments ADMIN_IDS st o)
      as [->|[(c & r' & _ & _ & _ & ->)|(caller & -> & Hadm & ->)]].
    + by left.
    + left. by rewrite dict_get_app_fresh, Hr.
    + right. by exists caller.
Qed.

Lemma assigned_role_stays_exclusive_witness :
  let st := run [] [Select (User.mk 1 "u1") "pm"; Confirm (User.mk 1 "u1") "pm"]
              initial_store in
  let st' := fst (step [] st (Select (User.mk 2 "u2") "pm")) in
  (∀ c, PENDING_CONFIRM st' !! c = Some "pm" → PENDING_CONFIRM st !! c = Some "pm") ∧
  (dict_get (ASSIGNMENTS st') "pm" = Some (Assigned.mk 1 "u1") ∨
   ∃ caller, Select (User.mk 2 "u2") "pm" = Reset caller ∧ caller ∈ [] ∧
             st' = initial_store).
Proof.
  destruct (assigned_role_stays_exclusive []
              [Select (User.mk 1 "u1") "pm"; Confirm (User.mk 1 "u1") "pm"])
    as [_ Hnext].
  apply (Hnext (Select (User.mk 2 "u2") "pm") "pm" (Assigned.mk 1 "u1")).
  reflexivity.
Defined.

(** C4 fails on the code, I4 read as a property of a single store: claimant 2
    selects ["pm"], then claimant 1 selects and confirms it; ["pm"] is now
    assigned to claimant 1 while claimant 2's pending claim still points
    at it. *)
Lemma assigned_role_keeps_stale_pending :
  let st := run [] [Select (User.mk 2 "u2") "pm"; Select (User.mk 1 "u1") "pm";
                    Confirm (User.mk 1 "u1") "pm"] initial_store in
  dict_get (ASSIGNMENTS st) "pm" = Some (Assigned.mk 1 "u1") ∧
  PENDING_CONFIRM st !! 2 = Some "pm".
Proof. split; vm_compute; reflexivity. Qed.

(** ** Updates as the transport delivers them *)

Lemma prefix_app p d : String.prefix p d = true → ∃ rest, d = p +:+ rest.
Proof.
  revert d. induction p as [|a p IH]; intros d.
  - intros _. by exists d.
  - destruct d as [|b d]; simpl; [done|].
    destruct (ascii_dec a b) as [->|]; [|done].
    intros [rest ->]%IH. by exists rest.
Qed.

Lemma split_colon_nonempty s : ∃ h t, split_colon s = h :: t.
Proof.
  induction s as [|c s (h & t & IH)]; simpl; [by eexists _, _|].
  destruct (Ascii.eqb c ":"); [by eexists _, _|].
  rewrite IH. simpl. by eexists _, _.
Qed.

(** The role key [data.split(":")[1]] of a callback whose data starts with
    a prefix that ends in its only colon is the text up to the next colon;
    the subscript never fails. *)
Lemma with_role_key_select st rest k :
  ∃ role_key, with_role_key st ("select:" +:+ rest) k = k role_key.
Proof.
  unfold with_role_key. simpl. change ("" +:+ rest) with rest.
  destruct (split_colon_nonempty rest) as (h & t & ->). by exists h.
Qed.

Lemma with_role_key_confirm st rest k :
  ∃ role_key, with_role_key st ("confirm:" +:+ rest) k = k role_key.
Proof.
  unfold with_role_key. simpl. change ("" +:+ rest) with rest.
  destruct (split_colon_nonempty rest) as (h & t & ->). by exists h.
Qed.

(** Every callback is answered by the no-op alert, by one of the three
    branches on some role key, or not at all. *)
Lemma roles_callback_cases st user data :
  roles_callback st user data = (st, Alert "This role is already assigned.") ∨
  (∃ role_key, roles_callback st user data = on_select st user role_key) ∨
  (∃ role_key, roles_callback st user data = on_confirm st user role_key) ∨
  roles_callback st user data = on_cancel st user ∨
  roles_callback st user data = (st, NoReply).
Proof.
  unfold roles_callback. destruct (String.eqb data "noop"); [by left|].
  destruct (String.prefix "select:" data) eqn:Hs.
  { apply prefix_app in Hs as [rest ->]. right; left. apply with_role_key_select. }
  destruct (String.prefix "confirm:" data) eqn:Hc.
  { apply prefix_app in Hc as [rest ->]. right; right; left.
    apply with_role_key_confirm. }
  destruct (String.eqb data "cancel"); auto 10.
Qed.

(** Each update leaves the store alone or acts on it as one operation. *)
Lemma handle_refines (ADMIN_IDS : list Z) st u :
  fst (handle ADMIN_IDS st u) = st ∨
  ∃ o, fst (handle ADMIN_IDS st u) = fst (step ADMIN_IDS st o).
Proof.
  destruct u as [user data|caller]; simpl.
  - destruct (roles_callback_cases st user data)
      as [->|[[k ->]|[[k ->]|[->| ->]]]]; [by left| | | |by left]; right.
    + by exists (Select user k).
    + by exists (Confirm user k).
    + by exists (Cancel user).
  - right. by exists (Reset caller).
Qed.

(** Hence the stores the bot can reach by serving updates are stores
    reached by sequences of operations. *)
Lemma serve_reachable (ADMIN_IDS : list Z) us :
  ∃ ops, serve ADMIN_IDS us initial_store = run ADMIN_IDS ops initial_store.
Proof.
  induction us as [|u us [ops IH]] using rev_ind; [by exists []|].
  unfold serve in *. rewrite fold_left_app. simpl. rewrite IH.
  destruct (handle_refines ADMIN_IDS (run ADMIN_IDS ops initial_store) u)
    as [->|[o ->]].
  - by exists ops.
  - exists (ops ++ [o]). by rewrite run_snoc.
Qed.

(** ** The scenarios of the specification, run on the code *)

(** Scenario A: after claimant 1 has selected and confirmed ["pm"], a
    [select] of ["pm"] by claimant 2 is refused as taken. *)
Example scenario_A :
  let st := run [] [Select (User.mk 1 "u1") "pm"; Confirm (User.mk 1 "u1") "pm"]
              initial_store in
  dict_get (ASSIGNMENTS st) "pm" = Some (Assigned.mk 1 "u1") ∧
  roles_callback st (User.mk 2 "u2") "select:pm" = (st, RoleTaken_select).
Proof. split; vm_compute; reflexivity. Qed.

(** Scenario D: an admin's reset frees ["pm"] again, and its former holder
    can select it again. *)
Example scenario_D :
  let st := run [100] [Select (User.mk 1 "u1") "pm"; Confirm (User.mk 1 "u1") "pm";
                       Reset 100] initial_store in
  st = initial_store ∧
  PENDING_CONFIRM (fst (roles_callback st (User.mk 1 "u1") "select:pm")) !! 1
    = Some "pm".
Proof. split; vm_compute; reflexivity. Qed.

(** ** More on the dictionaries *)

Section PyDictLookup.
Context {K V : Type} `{EqDecision K}.
Implicit Types (d : list (K * V)) (k : K) (v : V).

Lemma dict_get_Some_elem_of d k v : dict_get d k = Some v → (k, v) ∈ d.
Proof.
  induction d as [|[k' v'] d IH]; simpl; [done|].
  destruct (decide (k' = k)) as [->|]; intros Hg.
  - injection Hg as ->. apply list_elem_of_here.
  - by apply list_elem_of_further, IH.
Qed.

Lemma dict_get_Some_key d k v : dict_get d k = Some v → k ∈ d.*1.
Proof.
  intros Hg%dict_get_Some_elem_of.
  by apply (list_elem_of_fmap_2 fst) in Hg.
Qed.

Lemma dict_get_app_l d d' k v :
  dict_get d k = Some v → dict_get (d ++ d') k = Some v.
Proof.
  induction d as [|[k' v'] d IH]; simpl; [done|].
  by destruct (decide (k' = k)).
Qed.

Lemma dict_get_set d k v k' :
  dict_get (dict_set d k v) k' = if decide (k = k') then Some v else dict_get d k'.
Proof.
  induction d as [|[k0 v0] d IH]; simpl.
  - done.
  - destruct (decide (k0 = k)) as [->|Hk0]; simpl.
    + by destruct (decide (k = k')).
    + rewrite IH. destruct (decide (k0 = k')) as [->|]; [|done].
      by rewrite decide_False.
Qed.

Lemma dict_set_keys d k v :
  (dict_set d k v).*1 = if dict_mem k d then d.*1 else d.*1 ++ [k].
Proof.
  unfold dict_mem. induction d as [|[k0 v0] d IH]; [done|].
  cbn [dict_set dict_get]. destruct (decide (k0 = k)) as [->|]; [done|].
  rewrite !fmap_cons, IH. cbn [fst]. by destruct (dict_get d k).
Qed.

End PyDictLookup.

(** X17.  After [d[k] = v] a lookup of [k] finds [v] and a lookup of any
    other key finds what it found before; the keys keep their order, with
    [k] added at the end if it is new, so they stay pairwise distinct. *)
Theorem dict_set_lookup {V : Type} (d : list (string * V)) k v :
  dict_get (dict_set d k v) k = Some v ∧
  dict_mem k (dict_set d k v) = true ∧
  (∀ k', k' ≠ k → dict_get (dict_set d k v) k' = dict_get d k') ∧
  (dict_set d k v).*1 = (if dict_mem k d then d.*1 else d.*1 ++ [k]) ∧
  (NoDup d.*1 → NoDup (dict_set d k v).*1).
Proof.
  assert (Hk : dict_get (dict_set d k v) k = Some v)
    by (by rewrite dict_get_set, decide_True).
  split; [done|]. split; [unfold dict_mem; by rewrite Hk|].
  split; [intros k' Hne; by rewrite dict_get_set, decide_False|].
  split; [apply dict_set_keys|].
  intros Hnd. rewrite dict_set_keys. destruct (dict_mem k d) eqn:Hm; [done|].
  apply NoDup_app. split; [done|]. split; [|apply NoDup_singleton].
  intros k' Hk' ->%list_elem_of_singleton. by apply dict_mem_false in Hm.
Qed.

Lemma dict_set_lookup_witness :
  NoDup (dict_set [("pm", Assigned.mk 1 "u1")] "ml" (Assigned.mk 2 "u2")).*1.
Proof.
  apply (dict_set_lookup [("pm", Assigned.mk 1 "u1")] "ml" (Assigned.mk 2 "u2")).
  simpl. apply NoDup_singleton.
Defined.

(** ** The catalog *)

Lemma get_role_by_key_Some role_key role :
  get_role_by_key role_key = Some role ↔
  role ∈ PROJECT_ROLES ∧ Role.key role = role_key.
Proof.
  split.
  - intros [Hin Heq]%find_some. apply String.eqb_eq in Heq.
    split; [by apply list_elem_of_In|done].
  - intros [Hin <-]. unfold PROJECT_ROLES in Hin.
    repeat (apply elem_of_cons in Hin as [->|Hin]; [reflexivity|]).
    by apply elem_of_nil in Hin.
Qed.

Lemma get_role_by_key_None role_key :
  get_role_by_key role_key = None ↔ role_key ∉ Role.key <$> PROJECT_ROLES.
Proof.
  split.
  - intros Hnone (role & -> & Hin)%list_elem_of_fmap.
    assert (get_role_by_key (Role.key role) = Some role) as Hs
      by by apply get_role_by_key_Some.
    congruence.
  - intros Hnot. destruct (get_role_by_key role_key) as [role|] eqn:Hg; [|done].
    apply get_role_by_key_Some in Hg as [Hin <-].
    destruct Hnot. by apply list_elem_of_fmap_2.
Qed.

(** The keys of the catalog are not empty and hold no colon. *)
Lemma catalog_key_shape role :
  role ∈ PROJECT_ROLES →
  colon_free (Role.key role) = true ∧ String.eqb (Role.key role) "" = false.
Proof.
  unfold PROJECT_ROLES. intros Hin.
  repeat (apply elem_of_cons in Hin as [->|Hin]; [by split|]).
  by apply elem_of_nil in Hin.
Qed.

(** X1.  [get_role_by_key] finds a role exactly for the keys of the
    catalog, and the role it finds is the catalog entry with that key. *)
Theorem get_role_by_key_spec role_key :
  (∀ role, get_role_by_key role_key = Some role ↔
           role ∈ PROJECT_ROLES ∧ Role.key role = role_key) ∧
  (get_role_by_key role_key = None ↔ role_key ∉ Role.key <$> PROJECT_ROLES) ∧
  NoDup (Role.key <$> PROJECT_ROLES).
Proof.
  split; [intros role; apply get_role_by_key_Some|].
  split; [apply get_role_by_key_None|].
  apply (bool_decide_unpack _). vm_compute. exact I.
Qed.

Lemma get_role_by_key_spec_witness :
  get_role_by_key "backend" =
    Some (Role.mk "backend" "Backend Developer"
            ("Responsible for designing backend architecture, implementing REST APIs, handling authentication and "
             +:+ "authorization, managing complaint and feedback workflows, and integrating the database.")).
Proof.
  apply (get_role_by_key_spec "backend"). split; [|reflexivity].
  apply list_elem_of_further, list_elem_of_here.
Defined.

(** ** The reverse lookup [get_user_role] *)

Lemma get_user_role_Some assignments user_id key :
  get_user_role assignments user_id = Some key ↔
  ∃ pre v post,
    assignments = pre ++ (key, v) :: post ∧
    Assigned.user_id v = user_id ∧
    user_id ∉ Assigned.user_id <$> pre.*2.
Proof.
  induction assignments as [|[k0 v0] rest IH]; simpl.
  - split; [done|]. intros (pre & v & post & Heq & _). by destruct pre.
  - destruct (Z.eqb_spec (Assigned.user_id v0) user_id) as [Hid|Hid].
    + split.
      * intros [= ->]. exists [], v0, rest. split; [done|]. split; [done|].
        apply not_elem_of_nil.
      * intros ([|[k1 v1] pre] & v & post & Heq & Hv & Hpre); simpl in *.
        -- congruence.
        -- injection Heq as ? ? ?; subst. destruct Hpre.
           apply elem_of_cons. by left.
    + rewrite IH. split.
      * intros (pre & v & post & -> & Hv & Hpre).
        exists ((k0, v0) :: pre), v, post. split; [done|]. split; [done|].
        simpl. by apply not_elem_of_cons.
      * intros ([|[k1 v1] pre] & v & post & Heq & Hv & Hpre); simpl in *.
        -- congruence.
        -- injection Heq as ? ? ?; subst. exists pre, v, post.
           apply not_elem_of_cons in Hpre as [_ Hpre]. done.
Qed.

(** X2.  [get_user_role] returns the key of the first item of
    [ASSIGNMENTS], in insertion order, whose [user_id] is the one asked
    for, and [None] exactly when no item has it. *)
Theorem get_user_role_first_match assignments user_id :
  (∀ key, get_user_role assignments user_id = Some key ↔
     ∃ pre v post,
       assignments = pre ++ (key, v) :: post ∧
       Assigned.user_id v = user_id ∧
       user_id ∉ Assigned.user_id <$> pre.*2) ∧
  (get_user_role assignments user_id = None ↔
     user_id ∉ Assigned.user_id <$> assignments.*2).
Proof.
  split; [intros key; apply get_user_role_Some|apply get_user_role_None].
Qed.

Lemma get_user_role_first_match_witness :
  get_user_role
    [("pm", Assigned.mk 1 "u1"); ("ml", Assigned.mk 2 "u2");
     ("qa", Assigned.mk 2 "u2")] 2 = Some "ml".
Proof.
  apply (get_user_role_first_match
           [("pm", Assigned.mk 1 "u1"); ("ml", Assigned.mk 2 "u2");
            ("qa", Assigned.mk 2 "u2")] 2).
  exists [("pm", Assigned.mk 1 "u1")], (Assigned.mk 2 "u2"),
         [("qa", Assigned.mk 2 "u2")].
  split; [reflexivity|]. split; [reflexivity|].
  simpl. intros Hin. apply list_elem_of_singleton in Hin. discriminate.
Defined.

(** ** Splitting callback data *)

Lemma join_cons_head sep c parts :
  parts ≠ [] → join sep (cons_head c parts) = String c (join sep parts).
Proof. destruct parts as [|h [|h' t]]; done. Qed.

Lemma split_colon_ne_nil s : split_colon s ≠ [].
Proof. by destruct (split_colon_nonempty s) as (h & t & ->). Qed.

Lemma colon_free_cons_head c parts :
  Ascii.eqb c ":" = false →
  Forall (λ p, colon_free p = true) parts →
  Forall (λ p, colon_free p = true) (cons_head c parts).
Proof.
  intros Hc [|h t Hh Ht]; simpl.
  - apply Forall_singleton. simpl. by rewrite Hc.
  - apply Forall_cons. split; [|done]. simpl. by rewrite Hc, Hh.
Qed.

(** X3.  Joining the parts of [s.split(":")] with [":"] gives [s] back,
    there is at least one part, and no part holds a colon. *)
Theorem split_colon_join s :
  join ":" (split_colon s) = s ∧
  split_colon s ≠ [] ∧
  Forall (λ part, colon_free part = true) (split_colon s).
Proof.
  split; [|split; [apply split_colon_ne_nil|]].
  - induction s as [|c s IH]; simpl; [done|].
    destruct (Ascii.eqb_spec c ":") as [->|Hc].
    + destruct (split_colon_nonempty s) as (h & t & Hs).
      rewrite Hs in *. simpl in *. by rewrite IH.
    + rewrite join_cons_head by apply split_colon_ne_nil. by rewrite IH.
  - induction s as [|c s IH]; simpl; [by apply Forall_singleton|].
    destruct (Ascii.eqb c ":") eqn:Hc.
    + by apply Forall_cons.
    + by apply colon_free_cons_head.
Qed.

Lemma split_colon_free k : colon_free k = true → split_colon k = [k].
Proof.
  induction k as [|c k IH]; simpl; [done|].
  intros [Hc Hk]%andb_prop. apply negb_true_iff in Hc.
  by rewrite Hc, IH.
Qed.

Lemma split_colon_first k junk :
  colon_free k = true →
  split_colon (k +:+ ":" +:+ junk) = k :: split_colon junk.
Proof.
  induction k as [|c k IH]; simpl; [done|].
  intros [Hc Hk]%andb_prop. apply negb_true_iff in Hc.
  by rewrite Hc, IH.
Qed.

Lemma prefix_append p rest : String.prefix p (p +:+ rest) = true.
Proof.
  induction p as [|a p IH]; simpl; [by destruct rest|].
  by destruct (ascii_dec a a).
Qed.

(** A callback whose data is ["select:"] followed by [rest] goes to the
    select branch with the first part of [rest]; likewise for
    ["confirm:"]. *)
Lemma roles_callback_select st user rest :
  roles_callback st user ("select:" +:+ rest)
  = on_select st user (hd "" (split_colon rest)).
Proof.
  unfold roles_callback.
  change (String.eqb ("select:" +:+ rest) "noop") with false.
  rewrite prefix_append. unfold with_role_key. simpl.
  change ("" +:+ rest) with rest.
  by destruct (split_colon_nonempty rest) as (h & t & ->).
Qed.

Lemma roles_callback_confirm st user rest :
  roles_callback st user ("confirm:" +:+ rest)
  = on_confirm st user (hd "" (split_colon rest)).
Proof.
  unfold roles_callback.
  change (String.eqb ("confirm:" +:+ rest) "noop") with false.
  change (String.prefix "select:" ("confirm:" +:+ rest)) with false.
  rewrite prefix_append. unfold with_role_key. simpl.
  change ("" +:+ rest) with rest.
  by destruct (split_colon_nonempty rest) as (h & t & ->).
Qed.

(** X4.  The callback data the buttons carry decode to the key they were
    built from: for a key without a colon, ["select:<key>"] runs the select
    branch and ["confirm:<key>"] the confirm branch on that key.  Whatever
    follows a further colon is ignored. *)
Theorem callback_data_round_trip st user key junk :
  colon_free key = true →
  roles_callback st user ("select:" +:+ key) = on_select st user key ∧
  roles_callback st user ("confirm:" +:+ key) = on_confirm st user key ∧
  roles_callback st user ("select:" +:+ key +:+ ":" +:+ junk)
    = on_select st user key ∧
  roles_callback st user ("confirm:" +:+ key +:+ ":" +:+ junk)
    = on_confirm st user key.
Proof.
  intros Hk.
  rewrite !roles_callback_select, !roles_callback_confirm.
  by rewrite split_colon_free, split_colon_first.
Qed.

Lemma callback_data_round_trip_witness :
  roles_callback busy_store (User.mk 3 "u3") "confirm:ml:again"
  = on_confirm busy_store (User.mk 3 "u3") "ml".
Proof.
  apply (callback_data_round_trip busy_store (User.mk 3 "u3") "ml" "again").
  reflexivity.
Defined.

(** X5.  The two buttons shown after a successful [select] are wired to
    the role that was selected: pressing the first runs the confirm branch
    on that role key, pressing the second the cancel branch. *)
Theorem select_buttons_wired st c r text markup :
  snd (on_select st c r) = EditMessageText text markup →
  ∃ label1 data1 label2 data2,
    markup = [(label1, data1); (label2, data2)] ∧
    ∀ st' user,
      roles_callback st' user data1 = on_confirm st' user r ∧
      roles_callback st' user data2 = on_cancel st' user.
Proof.
  unfold on_select. destruct (dict_mem r _); [done|].
  destruct (get_user_role _ _); [done|].
  destruct (get_role_by_key r) as [role|] eqn:Hr; [|done].
  simpl. intros [= _ <-]. do 4 eexists. split; [done|]. intros st' user.
  apply get_role_by_key_Some in Hr as [Hin <-].
  apply catalog_key_shape in Hin as [Hfree _].
  split; [|done].
  by rewrite roles_callback_confirm, split_colon_free.
Qed.

Lemma select_buttons_wired_witness :
  ∃ label1 data1 label2 data2,
    [("✅ Confirm", "confirm:ml"); ("❌ Cancel", "cancel")]
      = [(label1, data1); (label2, data2)] ∧
    ∀ st' user,
      roles_callback st' user data1 = on_confirm st' user "ml" ∧
      roles_callback st' user data2 = on_cancel st' user.
Proof.
  eapply (select_buttons_wired busy_store (User.mk 3 "u3") "ml"). reflexivity.
Defined.



(** ** What one operation does to the store *)

(** The five shapes of the store after an operation. *)
Lemma step_cases (ADMIN_IDS : list Z) st o :
  fst (step ADMIN_IDS st o) = st ∨
  (∃ c r role, o = Select c r ∧
     dict_mem r (ASSIGNMENTS st) = false ∧
     get_user_role (ASSIGNMENTS st) (User.id c) = None ∧
     get_role_by_key r = Some role ∧
     fst (step ADMIN_IDS st o)
       = Store (ASSIGNMENTS st) (<[User.id c := r]> (PENDING_CONFIRM st))) ∨
  (∃ c r, o = Confirm c r ∧
     dict_mem r (ASSIGNMENTS st) = false ∧
     get_user_role (ASSIGNMENTS st) (User.id c) = None ∧
     fst (step ADMIN_IDS st o)
       = Store (ASSIGNMENTS st ++ [(r, assignment_of c)])
               (delete (User.id c) (PENDING_CONFIRM st))) ∨
  (∃ c, o = Cancel c ∧
     fst (step ADMIN_IDS st o)
       = Store (ASSIGNMENTS st) (delete (User.id c) (PENDING_CONFIRM st))) ∨
  (∃ caller, o = Reset caller ∧ caller ∈ ADMIN_IDS ∧
     fst (step ADMIN_IDS st o) = initial_store).
Proof.
  destruct o as [c r|c r|c|caller]; simpl.
  - destruct (dict_mem r (ASSIGNMENTS st)) eqn:Hm;
      [left; unfold on_select; by rewrite Hm|].
    destruct (get_user_role (ASSIGNMENTS st) (User.id c)) eqn:Hu;
      [left; unfold on_select; by rewrite Hm, Hu|].
    destruct (get_role_by_key r) as [role|] eqn:Hr;
      [|left; unfold on_select; by rewrite Hm, Hu, Hr].
    right; left. exists c, r, role. by rewrite (on_select_ok _ _ _ role).
  - destruct (dict_mem r (ASSIGNMENTS st)) eqn:Hm.
    { left. by rewrite on_confirm_taken. }
    destruct (get_user_role (ASSIGNMENTS st) (User.id c)) eqn:Hu.
    { left. by rewrite on_confirm_has_role. }
    right; right; left. exists c, r. by rewrite on_confirm_fresh.
  - right; right; right; left. by exists c.
  - unfold reset, is_admin. case_bool_decide; simpl; [|by left].
    right; right; right; right. by exists caller.
Qed.

Lemma run_cons (ADMIN_IDS : list Z) o ops st :
  run ADMIN_IDS (o :: ops) st = run ADMIN_IDS ops (fst (step ADMIN_IDS st o)).
Proof. done. Qed.

Lemma get_user_role_snoc assignments key v user_id :
  get_user_role (assignments ++ [(key, v)]) user_id =
  match get_user_role assignments user_id with
  | Some k => Some k
  | None => if Z.eqb (Assigned.user_id v) user_id then Some key else None
  end.
Proof.
  induction assignments as [|[k0 v0] rest IH]; simpl; [done|].
  by destruct (Z.eqb (Assigned.user_id v0) user_id).
Qed.

(** ** More invariants of the reachable stores *)

(** X7.  After any sequence of operations every pending claim points at a
    role of the catalog: [select] records a claim only after
    [get_role_by_key] has found the role. *)
Theorem pending_roles_in_catalog (ADMIN_IDS : list Z) ops c r :
  PENDING_CONFIRM (run ADMIN_IDS ops initial_store) !! c = Some r →
  ∃ role, get_role_by_key r = Some role.
Proof.
  revert c r.
  apply (run_invariant ADMIN_IDS
           (λ st, ∀ c r, PENDING_CONFIRM st !! c = Some r →
                         ∃ role, get_role_by_key r = Some role)).
  - intros c r. unfold initial_store. simpl. by rewrite lookup_empty.
  - intros st o IH c r.
    destruct (step_cases ADMIN_IDS st o)
      as [->|[(u & k & role & _ & _ & _ & Hk & ->)
             |[(u & k & _ & _ & _ & ->)|[(u & _ & ->)|(a & _ & _ & ->)]]]];
      simpl.
    + apply IH.
    + intros [[_ <-]|[_ Hc]]%lookup_insert_Some; eauto.
    + intros [_ Hc]%lookup_delete_Some. eauto.
    + intros [_ Hc]%lookup_delete_Some. eauto.
    + unfold initial_store. simpl. by rewrite lookup_empty.
Qed.

Lemma pending_roles_in_catalog_witness :
  ∃ role, get_role_by_key "ml" = Some role.
Proof.
  apply (pending_roles_in_catalog []
           [Select (User.mk 1 "u1") "pm"; Select (User.mk 1 "u1") "ml"] 1 "ml").
  vm_compute; reflexivity.
Defined.

(** X8.  After any sequence of operations a claimant who holds an
    Assignment has no pending claim. *)
Theorem holder_has_no_pending (ADMIN_IDS : list Z) ops c :
  is_Some (get_user_role (ASSIGNMENTS (run ADMIN_IDS ops initial_store)) c) →
  PENDING_CONFIRM (run ADMIN_IDS ops initial_store) !! c = None.
Proof.
  revert c.
  apply (run_invariant ADMIN_IDS
           (λ st, ∀ c, is_Some (get_user_role (ASSIGNMENTS st) c) →
                       PENDING_CONFIRM st !! c = None)).
  - by intros c [k Hk].
  - intros st o IH c.
    destruct (step_cases ADMIN_IDS st o)
      as [->|[(u & k & role & _ & _ & Hu & _ & ->)
             |[(u & k & _ & _ & _ & ->)|[(u & _ & ->)|(a & _ & _ & ->)]]]];
      simpl.
    + apply IH.
    + intros Hc. rewrite lookup_insert_ne; [by apply IH|].
      intros <-. rewrite Hu in Hc. by destruct Hc.
    + rewrite get_user_role_snoc. intros Hc. apply lookup_delete_None.
      destruct (get_user_role (ASSIGNMENTS st) c) eqn:Hg.
      * right. apply IH. by rewrite Hg.
      * simpl in Hc. destruct (Z.eqb_spec (User.id u) c); [by left|].
        by destruct Hc.
    + intros Hc. apply lookup_delete_None. right. by apply IH.
    + by intros [k Hk].
Qed.

Lemma holder_has_no_pending_witness :
  PENDING_CONFIRM
    (run [] [Select (User.mk 1 "u1") "pm"; Confirm (User.mk 1 "u1") "ml"]
       initial_store) !! 1 = None.
Proof.
  apply (holder_has_no_pending []
           [Select (User.mk 1 "u1") "pm"; Confirm (User.mk 1 "u1") "ml"] 1).
  vm_compute. by eexists.
Defined.

Lemma reverse_lookup assignments user_id key :
  NoDup assignments.*1 →
  NoDup (Assigned.user_id <$> assignments.*2) →
  get_user_role assignments user_id = Some key ↔
  ∃ a, dict_get assignments key = Some a ∧ Assigned.user_id a = user_id.
Proof.
  induction assignments as [|[k0 v0] rest IH].
  - intros _ _. simpl. split; [done|]. by intros (a & ? & _).
  - rewrite !fmap_cons. cbn [fst snd get_user_role dict_get].
    intros [Hk0 Hks]%NoDup_cons [Hv0 Hvs]%NoDup_cons.
    destruct (Z.eqb_spec (Assigned.user_id v0) user_id) as [Hid|Hid].
    + split.
      * intros [= ->]. exists v0. by rewrite decide_True.
      * intros (a & Ha & Hida). destruct (decide (k0 = key)) as [->|Hne]; [done|].
        destruct Hv0. rewrite Hid, <- Hida.
        apply dict_get_Some_elem_of in Ha.
        apply (list_elem_of_fmap_2 snd) in Ha.
        by apply (list_elem_of_fmap_2 Assigned.user_id) in Ha.
    + rewrite (IH Hks Hvs). split.
      * intros (a & Ha & Hida). exists a. split; [|done].
        rewrite decide_False; [done|]. intros ->.
        by apply dict_get_Some_key in Ha.
      * intros (a & Ha & Hida). exists a. split; [|done].
        destruct (decide (k0 = key)) as [->|]; [|done]. congruence.
Qed.

Lemma user_ids_NoDup (ADMIN_IDS : list Z) ops :
  NoDup (Assigned.user_id <$> (ASSIGNMENTS (run ADMIN_IDS ops initial_store)).*2).
Proof.
  apply (run_invariant ADMIN_IDS
           (λ st, NoDup (Assigned.user_id <$> (ASSIGNMENTS st).*2))).
  - apply NoDup_nil_2.
  - intros st o Hnd.
    destruct (step_cases ADMIN_IDS st o)
      as [->|[(u & k & role & _ & _ & _ & _ & ->)
             |[(u & k & _ & _ & Hu & ->)|[(u & _ & ->)|(a & _ & _ & ->)]]]];
      simpl; try done.
    + rewrite !fmap_app. simpl. apply NoDup_app. split; [done|]. split.
      * intros i Hi ->%list_elem_of_singleton.
        by apply get_user_role_None in Hu.
      * apply NoDup_singleton.
    + apply NoDup_nil_2.
Qed.

(** X9.  After any sequence of operations the two lookups agree:
    [get_user_role] gives a claimant the key [r] exactly when the item of
    [ASSIGNMENTS] under [r] names that claimant. *)
Theorem role_lookups_agree (ADMIN_IDS : list Z) ops c r :
  let assignments := ASSIGNMENTS (run ADMIN_IDS ops initial_store) in
  get_user_role assignments c = Some r ↔
  ∃ a, dict_get assignments r = Some a ∧ Assigned.user_id a = c.
Proof. apply reverse_lookup; [apply keys_NoDup|apply user_ids_NoDup]. Qed.

Lemma role_lookups_agree_witness :
  get_user_role
    (ASSIGNMENTS (run [] [Confirm (User.mk 1 "u1") "pm"; Confirm (User.mk 2 "u2") "ml"]
                    initial_store)) 2 = Some "ml".
Proof.
  apply (role_lookups_agree []
           [Confirm (User.mk 1 "u1") "pm"; Confirm (User.mk 2 "u2") "ml"] 2 "ml").
  exists (Assigned.mk 2 "u2"). split; reflexivity.
Defined.

(** ** How operations compose *)

(** X10.  As long as no admin resets, [ASSIGNMENTS] only grows at its end:
    what it held before a sequence of operations is a prefix of what it
    holds after, and every Assignment made is still there, unchanged. *)
Theorem assignments_only_grow (ADMIN_IDS : list Z) ops st :
  (∀ caller, Reset caller ∈ ops → caller ∉ ADMIN_IDS) →
  (∃ added, ASSIGNMENTS (run ADMIN_IDS ops st) = ASSIGNMENTS st ++ added) ∧
  (∀ r a, dict_get (ASSIGNMENTS st) r = Some a →
          dict_get (ASSIGNMENTS (run ADMIN_IDS ops st)) r = Some a).
Proof.
  intros Hops.
  assert (∃ added, ASSIGNMENTS (run ADMIN_IDS ops st) = ASSIGNMENTS st ++ added)
    as [added Hadd].
  { revert st. induction ops as [|o ops IH]; intros st.
    - exists []. simpl. by rewrite app_nil_r.
    - rewrite run_cons.
      destruct (IH (λ a Ha, Hops a (list_elem_of_further _ _ _ Ha))
                   (fst (step ADMIN_IDS st o))) as [added ->].
      destruct (step_assignments ADMIN_IDS st o)
        as [->|[(c & r & _ & _ & _ & ->)|(caller & -> & Hadm & _)]].
      + by exists added.
      + exists ([(r, assignment_of c)] ++ added). by rewrite app_assoc.
      + destruct (Hops caller); [apply list_elem_of_here|done]. }
  split; [by exists added|].
  intros r a Hr. rewrite Hadd. by apply dict_get_app_l.
Qed.

Lemma assignments_only_grow_witness :
  dict_get
    (ASSIGNMENTS
       (run [7] [Cancel (User.mk 1 "u1"); Reset 3; Confirm (User.mk 2 "u2") "ml"]
          busy_store)) "pm" = Some (Assigned.mk 1 "u1").
Proof.
  apply (assignments_only_grow [7]
           [Cancel (User.mk 1 "u1"); Reset 3; Confirm (User.mk 2 "u2") "ml"]
           busy_store).
  - intros caller Hin Hadm.
    apply list_elem_of_singleton in Hadm as ->.
    repeat (apply elem_of_cons in Hin as [Hin|Hin]; [discriminate|]).
    by apply elem_of_nil in Hin.
  - reflexivity.
Defined.

(** X11.  An admin's reset forgets everything before it: the store after a
    sequence of operations is the store the operations after the last such
    reset produce from the initial store. *)
Theorem reset_forgets_history (ADMIN_IDS : list Z) before caller after st :
  caller ∈ ADMIN_IDS →
  run ADMIN_IDS (before ++ Reset caller :: after) st
  = run ADMIN_IDS after initial_store.
Proof.
  intros Hadm. unfold run. rewrite fold_left_app. simpl.
  unfold reset, is_admin. by rewrite bool_decide_eq_true_2.
Qed.

Lemma reset_forgets_history_witness :
  run [7] ([Confirm (User.mk 1 "u1") "pm"] ++ Reset 7 :: [Select (User.mk 1 "u1") "ml"])
    busy_store
  = run [7] [Select (User.mk 1 "u1") "ml"] initial_store.
Proof.
  apply (reset_forgets_history [7]). apply list_elem_of_here.
Defined.

(** X12.  A [select] followed by the same claimant's [cancel] restores the
    store, whether the select was accepted or refused, when the claimant
    had no pending claim before. *)
Theorem select_then_cancel st c r :
  PENDING_CONFIRM st !! User.id c = None →
  fst (on_cancel (fst (on_select st c r)) c) = st.
Proof.
  intros Hp. unfold on_cancel, on_select.
  destruct (dict_mem r _); [|destruct (get_user_role _ _);
                             [|destruct (get_role_by_key r)]]; simpl;
    rewrite ?delete_insert_eq, delete_id by done; apply store_eta.
Qed.

Lemma select_then_cancel_witness :
  fst (on_cancel (fst (on_select busy_store (User.mk 3 "u3") "ml")) (User.mk 3 "u3"))
  = busy_store.
Proof.
  apply (select_then_cancel busy_store (User.mk 3 "u3") "ml").
  vm_compute; reflexivity.
Defined.

(** X13.  The whole claim: when the role is in the catalog and free and the
    claimant holds no role, [select] then [confirm] leaves the Assignment of
    the role to the claimant at the end of [ASSIGNMENTS] and no pending claim
    of the claimant; from then on [get_user_role] gives the claimant that
    role, [/myrole] answers with its name and description, and a further
    [select] by the claimant of any role is refused with the store
    unchanged. *)
Theorem select_confirm_assigns (ADMIN_IDS : list Z) st c r role :
  dict_mem r (ASSIGNMENTS st) = false →
  get_user_role (ASSIGNMENTS st) (User.id c) = None →
  get_role_by_key r = Some role →
  let st' := run ADMIN_IDS [Select c r; Confirm c r] st in
  st' = Store (ASSIGNMENTS st ++ [(r, assignment_of c)])
              (delete (User.id c) (PENDING_CONFIRM st)) ∧
  dict_get (ASSIGNMENTS st') r = Some (assignment_of c) ∧
  get_user_role (ASSIGNMENTS st') (User.id c) = Some r ∧
  myrole (ASSIGNMENTS st') (User.id c) = your_role role ∧
  ∀ r', fst (on_select st' c r') = st' ∧
        ∃ text, snd (on_select st' c r') = Alert text.
Proof.
  intros Hm Hu Hr st'.
  assert (Hst : st' = Store (ASSIGNMENTS st ++ [(r, assignment_of c)])
                        (delete (User.id c) (PENDING_CONFIRM st))).
  { subst st'. unfold run. simpl. rewrite (on_select_ok _ _ _ role) by done.
    rewrite on_confirm_fresh by done. simpl. by rewrite delete_insert_eq. }
  assert (Hrole : get_user_role (ASSIGNMENTS st') (User.id c) = Some r).
  { rewrite Hst. simpl. rewrite get_user_role_snoc, Hu. simpl.
    by rewrite Z.eqb_refl. }
  split; [done|]. split; [|split; [done|split]].
  - rewrite Hst. simpl. rewrite dict_get_app_fresh.
    unfold dict_mem in Hm. destruct (dict_get (ASSIGNMENTS st) r); [done|].
    by rewrite decide_True.
  - unfold myrole. rewrite Hrole, Hr.
    apply get_role_by_key_Some in Hr as [Hin <-].
    by destruct (catalog_key_shape role Hin) as [_ ->].
  - intros r'. unfold on_select. rewrite Hrole.
    destruct (dict_mem r' (ASSIGNMENTS st')); simpl; eauto.
Qed.

Lemma select_confirm_assigns_witness :
  myrole
    (ASSIGNMENTS
       (run [] [Select (User.mk 3 "u3") "ml"; Confirm (User.mk 3 "u3") "ml"]
          busy_store)) 3
  = your_role
      (Role.mk "ml" "Machine Learning & Automation Engineer"
         ("Responsible for implementing complaint classification, priority prediction, and automatic assignment using NLP "
          +:+ "techniques such as sentence transformers, improving system intelligence.")).
Proof.
  apply (select_confirm_assigns [] busy_store (User.mk 3 "u3") "ml"); reflexivity.
Defined.

(** ** What the read-only handlers show *)

(** X14.  The status text, the role keyboard and the replies to [/status],
    [/start] and [/roles] read [ASSIGNMENTS] only at the keys of the
    catalog: two dictionaries that agree there are shown alike, whatever
    else they hold and in whatever order. *)
Theorem views_read_catalog_keys_only (a1 a2 : list (string * Assigned.t)) :
  (∀ role, role ∈ PROJECT_ROLES →
           dict_get a1 (Role.key role) = dict_get a2 (Role.key role)) →
  get_assignments_text a1 = get_assignments_text a2 ∧
  role_selection_keyboard a1 = role_selection_keyboard a2 ∧
  status a1 = status a2 ∧
  start_or_roles a1 = start_or_roles a2.
Proof.
  intros Hagree.
  assert (Htext : get_assignments_text a1 = get_assignments_text a2).
  { unfold get_assignments_text. f_equal. apply map_ext_in.
    intros role Hin%list_elem_of_In. by rewrite Hagree. }
  assert (Hkeys : role_selection_keyboard a1 = role_selection_keyboard a2).
  { unfold role_selection_keyboard. apply map_ext_in.
    intros role Hin%list_elem_of_In. by rewrite Hagree. }
  unfold status, start_or_roles. by rewrite Htext, Hkeys.
Qed.

Lemma views_read_catalog_keys_only_witness :
  status [("qa", Assigned.mk 1 "Ann")] = status [].
Proof.
  apply (views_read_catalog_keys_only [("qa", Assigned.mk 1 "Ann")] []).
  intros role Hin. unfold PROJECT_ROLES in Hin.
  repeat (apply elem_of_cons in Hin as [->|Hin]; [reflexivity|]).
  by apply elem_of_nil in Hin.
Defined.

Lemma catalog_keys_only (ADMIN_IDS : list Z) ops :
  (∀ c r, Confirm c r ∈ ops → is_Some (get_role_by_key r)) →
  ∀ k, k ∈ (ASSIGNMENTS (run ADMIN_IDS ops initial_store)).*1 →
       is_Some (get_role_by_key k).
Proof.
  induction ops as [|o ops IH] using rev_ind; intros Hops k.
  - by intros ?%elem_of_nil.
  - rewrite run_snoc.
    assert (Hpre : ∀ c r, Confirm c r ∈ ops → is_Some (get_role_by_key r)).
    { intros c r Hin. apply (Hops c r), elem_of_app. by left. }
    destruct (step_assignments ADMIN_IDS (run ADMIN_IDS ops initial_store) o)
      as [->|[(c & r & -> & _ & _ & ->)|(caller & _ & _ & ->)]].
    + by apply IH.
    + rewrite fmap_app. simpl.
      intros [Hk| ->%list_elem_of_singleton]%elem_of_app; [by apply IH|].
      apply (Hops c r), elem_of_app. right. apply list_elem_of_here.
    + by intros ?%elem_of_nil.
Qed.

(** X15.  When every confirmation carried a key of the catalog, [/myrole]
    never fails: it tells a claimant without an Assignment that no role is
    selected, and answers every other claimant with the name and
    description of the catalog role their Assignment is stored under. *)
Theorem myrole_on_catalog_runs (ADMIN_IDS : list Z) ops user_id :
  (∀ c r, Confirm c r ∈ ops → is_Some (get_role_by_key r)) →
  let assignments := ASSIGNMENTS (run ADMIN_IDS ops initial_store) in
  (get_user_role assignments user_id = None ∧
   myrole assignments user_id = not_selected_yet) ∨
  (∃ r role a,
     get_user_role assignments user_id = Some r ∧
     dict_get assignments r = Some a ∧ Assigned.user_id a = user_id ∧
     get_role_by_key r = Some role ∧
     myrole assignments user_id = your_role role).
Proof.
  intros Hops assignments. unfold myrole.
  destruct (get_user_role assignments user_id) as [r|] eqn:Hr; [right|by left].
  pose proof Hr as (a & Ha & Hida)%reverse_lookup;
    [|apply keys_NoDup|apply user_ids_NoDup].
  destruct (catalog_keys_only ADMIN_IDS ops Hops r) as [role Hrole].
  { by apply dict_get_Some_key in Ha. }
  exists r, role, a. rewrite Hrole. repeat split; try done.
  apply get_role_by_key_Some in Hrole as [Hin <-].
  by destruct (catalog_key_shape role Hin) as [_ ->].
Qed.

Lemma myrole_on_catalog_runs_witness :
  let assignments :=
    ASSIGNMENTS (run [] [Select (User.mk 1 "u1") "pm"; Confirm (User.mk 1 "u1") "pm"]
                   initial_store) in
  (get_user_role assignments 2 = None ∧ myrole assignments 2 = not_selected_yet) ∨
  (∃ r role a,
     get_user_role assignments 2 = Some r ∧
     dict_get assignments r = Some a ∧ Assigned.user_id a = 2 ∧
     get_role_by_key r = Some role ∧
     myrole assignments 2 = your_role role).
Proof.
  apply (myrole_on_catalog_runs []
           [Select (User.mk 1 "u1") "pm"; Confirm (User.mk 1 "u1") "pm"] 2).
  intros c r Hin.
  apply elem_of_cons in Hin as [Hin|Hin]; [discriminate|].
  apply list_elem_of_singleton in Hin. injection Hin as _ ->. by eexists.
Defined.

(** X16.  A confirmation under a key outside the catalog, made while that
    key is free and the claimant holds no role, leaves the claimant holding
    that key: [get_user_role] returns it, and [/myrole] then fails with
    [TypeError], or, when the key is the empty string, answers that no
    role is selected. *)
Theorem myrole_after_stray_confirm st c k :
  dict_mem k (ASSIGNMENTS st) = false →
  get_user_role (ASSIGNMENTS st) (User.id c) = None →
  get_role_by_key k = None →
  let assignments := ASSIGNMENTS (fst (on_confirm st c k)) in
  get_user_role assignments (User.id c) = Some k ∧
  (k ≠ "" → myrole assignments (User.id c) = Raise TypeError) ∧
  (k = "" → myrole assignments (User.id c) = not_selected_yet).
Proof.
  intros Hm Hu Hk assignments. subst assignments.
  rewrite on_confirm_fresh by done. simpl.
  assert (Hrole : get_user_role (ASSIGNMENTS st ++ [(k, assignment_of c)])
                    (User.id c) = Some k).
  { rewrite get_user_role_snoc, Hu. simpl. by rewrite Z.eqb_refl. }
  split; [done|]. unfold myrole. rewrite Hrole, Hk. split.
  - intros Hne. by apply String.eqb_neq in Hne as ->.
  - by intros ->.
Qed.

Lemma myrole_after_stray_confirm_witness :
  myrole (ASSIGNMENTS (fst (on_confirm busy_store (User.mk 3 "u3") "qa"))) 3
  = Raise TypeError.
Proof.
  apply (myrole_after_stray_confirm busy_store (User.mk 3 "u3") "qa");
    [reflexivity|reflexivity|reflexivity|discriminate].
Defined.

(** ** Alerts and failing subscripts of [roles_callback] *)

Lemma on_select_reply st c r :
  (∃ text, snd (on_select st c r) = Alert text) ∨
  (∃ text markup, snd (on_select st c r) = EditMessageText text markup).
Proof.
  unfold on_select. destruct (dict_mem r _); [by eauto|].
  destruct (get_user_role _ _); [by eauto|].
  destruct (get_role_by_key r); simpl; eauto.
Qed.

(** X18.  A callback that is answered by an alert, or not answered at all,
    leaves both dictionaries as they were. *)
Theorem callback_alert_keeps_store st user data :
  (∃ text, snd (roles_callback st user data) = Alert text) ∨
  snd (roles_callback st user data) = NoReply →
  fst (roles_callback st user data) = st.
Proof.
  destruct (roles_callback_cases st user data)
    as [->|[[k ->]|[[k ->]|[->| ->]]]]; try done.
  - intros [[text Ht]|Hn].
    + by apply (alert_leaves_store st user k text).
    + by destruct (on_select_reply st user k) as [[? ?]|(? & ? & ?)]; congruence.
  - intros [[text Ht]|Hn].
    + by apply (alert_leaves_store st user k text).
    + revert Hn. unfold on_confirm. destruct (dict_mem k _); [done|].
      destruct (get_user_role _ _); [done|]. by destruct (get_role_by_key k).
  - by intros [[text Ht]|Hn].
Qed.

Lemma callback_alert_keeps_store_witness :
  fst (roles_callback busy_store (User.mk 1 "u1") "select:ml") = busy_store.
Proof.
  apply (callback_alert_keeps_store busy_store (User.mk 1 "u1") "select:ml").
  left. by eexists.
Defined.

(** X19.  For callback data that is a string, the two subscripts of
    [roles_callback] behave as follows.  [data.split(":")[1]] never fails
    with [IndexError].  [get_role_by_key(role_key)['name']] fails with
    [TypeError] only in the confirm branch, for a key outside the catalog
    that is free, pressed by a user who holds no role, and the Assignment
    under that key has been stored by then; and it does fail whenever the
    confirm branch runs on such a key. *)
Theorem callback_subscript_failures st user data :
  snd (roles_callback st user data) ≠ Raise IndexError ∧
  (snd (roles_callback st user data) = Raise TypeError →
   ∃ k, roles_callback st user data = on_confirm st user k ∧
        get_role_by_key k = None ∧
        dict_mem k (ASSIGNMENTS st) = false ∧
        get_user_role (ASSIGNMENTS st) (User.id user) = None ∧
        fst (roles_callback st user data)
          = Store (ASSIGNMENTS st ++ [(k, assignment_of user)])
                  (delete (User.id user) (PENDING_CONFIRM st))) ∧
  (∀ k, roles_callback st user data = on_confirm st user k →
        get_role_by_key k = None →
        dict_mem k (ASSIGNMENTS st) = false →
        get_user_role (ASSIGNMENTS st) (User.id user) = None →
        snd (roles_callback st user data) = Raise TypeError).
Proof.
  assert (Hraise : ∀ e, snd (roles_callback st user data) = Raise e →
            e = TypeError ∧
            ∃ k, roles_callback st user data = on_confirm st user k ∧
                 get_role_by_key k = None ∧
                 dict_mem k (ASSIGNMENTS st) = false ∧
                 get_user_role (ASSIGNMENTS st) (User.id user) = None ∧
                 fst (roles_callback st user data)
                   = Store (ASSIGNMENTS st ++ [(k, assignment_of user)])
                           (delete (User.id user) (PENDING_CONFIRM st))).
  { intros e.
    destruct (roles_callback_cases st user data)
      as [->|[[k ->]|[[k ->]|[->| ->]]]]; try done.
    - by destruct (on_select_reply st user k) as [[? ?]|(? & ? & ?)]; congruence.
    - destruct (dict_mem k (ASSIGNMENTS st)) eqn:Hm;
        [by rewrite on_confirm_taken|].
      destruct (get_user_role (ASSIGNMENTS st) (User.id user)) eqn:Hu;
        [by rewrite on_confirm_has_role|].
      intros He. rewrite on_confirm_fresh in He |- * by done. simpl in *.
      destruct (get_role_by_key k) eqn:Hk; [done|].
      injection He as <-. split; [done|]. exists k.
      rewrite on_confirm_fresh, Hk by done. done. }
  split; [|split].
  - intros He. by apply Hraise in He as [? _].
  - intros He. by apply Hraise in He as [_ ?].
  - intros k -> Hk Hm Hu. by rewrite on_confirm_fresh, Hk.
Qed.

Lemma callback_subscript_failures_witness :
  snd (roles_callback busy_store (User.mk 3 "u3") "confirm:qa") = Raise TypeError.
Proof.
  destruct (callback_subscript_failures busy_store (User.mk 3 "u3") "confirm:qa")
    as (_ & _ & Hfails).
  apply (Hfails "qa"); reflexivity.
Defined.
